(** * Access_To_Sanitation_Analysis_WB: a shallow embedding of part1_script.py

    The script has three pieces: [create_chart] (visibility vectors and the
    dropdown), [preprocess_df] (reshaping the World Bank table) and [main]
    (aggregate column, column selection and the call to [create_chart]).
    Tables are modelled column-wise: an index of row labels and a list of
    labelled columns, each holding one cell per row; a cell is [None] for a
    pandas NaN.  Numbers are exact rationals (float64 rounding is not
    modelled). *)

From Stdlib Require Import Ascii String List Bool Arith Lia QArith Qround Qabs Lqa Sorting Permutation.
Import ListNotations.
Open Scope string_scope.

(** ** Python visibility values: [True], [False] and ['legendonly']. *)
Inductive vis : Type :=
  | VTrue
  | VFalse
  | VLegendonly.

(** A Python dict from category name to option list, in insertion order. *)
Definition filter_options := list (string * list string).

(** [filter_options[k]] *)
Fixpoint dict_get (fo : filter_options) (k : string) : option (list string) :=
  match fo with
  | [] => None
  | (k', v) :: rest => if String.eqb k k' then Some v else dict_get rest k
  end.

(** [filter_options.keys()] *)
Definition dict_keys (fo : filter_options) : list string := map fst fo.

(** [col in lst] on a Python list of strings: literal label equality. *)
Definition py_in (c : string) (lst : list string) : bool :=
  existsb (String.eqb c) lst.

(** ** create_chart, lines 27-43: the inner loop over [df.columns]. *)
Definition visibility_entry (category_name : string) (opts : list string)
    (col : string) : vis :=
  if py_in col opts then
    if String.eqb col "Country_Avg_line" then VTrue
    else if String.eqb category_name "Countries" then VLegendonly
    else VTrue
  else VFalse.

Definition visibility_list (category_name : string) (opts : list string)
    (columns : list string) : list vis :=
  map (visibility_entry category_name opts) columns.

(** The outer loop: [filter_options[category_name]] is a key lookup; for a
    key taken from [keys()] it always succeeds (the [[]] fallback is never
    reached for such keys). *)
Definition category_list (fo : filter_options) : list string := dict_keys fo.

Definition options_of (fo : filter_options) (k : string) : list string :=
  match dict_get fo k with Some v => v | None => [] end.

Definition category_visibility_list (fo : filter_options) (columns : list string)
    : list (list vis) :=
  map (fun k => visibility_list k (options_of fo k) columns) (category_list fo).

(** ** create_chart, lines 45-54: the dropdown buttons. *)
Record button : Type := mkButton {
  b_label : string;
  b_method : string;
  b_arg_attr : string;
  b_arg_visible : list vis
}.

(** [for i, g in enumerate(category_list)] with
    [category_visibility_list[i]]; the index is always in range here. *)
Fixpoint enumerate_buttons (cats : list string) (vises : list (list vis))
    : list button :=
  match cats, vises with
  | g :: cats', v :: vises' =>
      mkButton g "restyle" "visible" v :: enumerate_buttons cats' vises'
  | _, _ => []
  end.

Definition all_button (columns : list string) : button :=
  mkButton "All" "restyle" "visible"
    (map (fun _ => VLegendonly) (seq 0 (length columns))).

Definition chart_buttons (fo : filter_options) (columns : list string)
    : list button :=
  all_button columns
    :: enumerate_buttons (category_list fo) (category_visibility_list fo columns).

(** ** Tables *)

(** A pandas cell: [None] stands for NaN. *)
Definition cell := option Q.

(** A pandas DataFrame, column-wise: axis names, the row index, and the
    labelled columns, each holding one cell per row of the index. *)
Record table : Type := mkTable {
  index_name : option string;
  columns_name : option string;
  index : list string;
  cols : list (string * list cell)
}.

Definition labels (t : table) : list string := map fst (cols t).

Definition is_some_cell (c : cell) : bool :=
  match c with Some _ => true | None => false end.

Definition cell_at (r : nat) (column : string * list cell) : cell :=
  nth r (snd column) None.

(** Keep the elements whose mask bit is [true]. *)
Fixpoint filter_mask {A : Type} (mask : list bool) (xs : list A) : list A :=
  match mask, xs with
  | b :: mask', x :: xs' => if b then x :: filter_mask mask' xs' else filter_mask mask' xs'
  | _, _ => []
  end.

(** [df.dropna(axis=1, how='all')]: drop the columns with no non-null cell. *)
Definition column_has_value (column : string * list cell) : bool :=
  existsb is_some_cell (snd column).

Definition dropna_columns_all (t : table) : table :=
  mkTable (index_name t) (columns_name t) (index t)
    (filter column_has_value (cols t)).

(** [df.dropna(subset=list(df.columns), how='all')]: drop the rows whose
    cells are null in every listed column (here: every column). *)
Definition row_has_value (cs : list (string * list cell)) (r : nat) : bool :=
  existsb (fun column => is_some_cell (cell_at r column)) cs.

Definition row_mask (t : table) : list bool :=
  map (row_has_value (cols t)) (seq 0 (length (index t))).

Definition dropna_rows_all (t : table) : table :=
  let m := row_mask t in
  mkTable (index_name t) (columns_name t) (filter_mask m (index t))
    (map (fun column => (fst column, filter_mask m (snd column))) (cols t)).

(** [str.replace("YR", "", regex=True)]: every non-overlapping occurrence of
    the pattern, scanned left to right, is removed. *)
Fixpoint replace_YR (s : string) : string :=
  match s with
  | String "Y"%char (String "R"%char rest) => replace_YR rest
  | String c rest => String c (replace_YR rest)
  | EmptyString => EmptyString
  end.

Definition rename_columns_YR (t : table) : table :=
  mkTable (index_name t) (columns_name t) (index t)
    (map (fun column => (replace_YR (fst column), snd column)) (cols t)).

(** [df.round(1)]: numpy rounds [x] to one decimal as [rint(x * 10) / 10],
    with [rint] rounding half to even; here in exact arithmetic. *)
Definition round_half_even (q : Q) : Z :=
  let f := Qfloor q in
  match Qcompare (q - inject_Z f) (1 # 2) with
  | Lt => f
  | Gt => (f + 1)%Z
  | Eq => if Z.even f then f else (f + 1)%Z
  end.

Definition round1 (x : Q) : Q := Qmake (round_half_even (x * 10)) 10.

Definition round_cell (c : cell) : cell := option_map round1 c.

Definition df_round1 (t : table) : table :=
  mkTable (index_name t) (columns_name t) (index t)
    (map (fun column => (fst column, map round_cell (snd column))) (cols t)).

(** [df.T]: the column labels become the index, the index labels become the
    column labels, and the two axis names swap. *)
Definition transpose (t : table) : table :=
  mkTable (columns_name t) (index_name t) (labels t)
    (map (fun r => (nth r (index t) EmptyString,
                    map (cell_at r) (cols t)))
         (seq 0 (length (index t)))).

(** [df.index.names = ['Year']] followed by [df.rename_axis(columns=None)]. *)
Definition name_axes (t : table) : table :=
  mkTable (Some "Year") None (index t) (cols t).

(** ** preprocess_df, lines 94-131, step by step as in the source (the
    console output is not modelled). *)
Definition preprocess_df (df : table) : table :=
  let df := dropna_columns_all df in
  let df := dropna_rows_all df in
  let df := rename_columns_YR df in
  let df := df_round1 df in
  let df := transpose df in
  name_axes df.

(** ** Python helpers used by main *)

(** [list.index(x)]: the first position; [None] is the [ValueError]. *)
Fixpoint list_index (x : string) (l : list string) : option nat :=
  match l with
  | [] => None
  | y :: l' =>
      if String.eqb y x then Some O
      else option_map S (list_index x l')
  end.

(** [sorted(...)] on strings: code-point order (a stable insertion sort). *)
Fixpoint insert_sorted (x : string) (l : list string) : list string :=
  match l with
  | [] => [x]
  | y :: l' => if String.leb x y then x :: y :: l' else y :: insert_sorted x l'
  end.

Fixpoint py_sorted (l : list string) : list string :=
  match l with
  | [] => []
  | x :: l' => insert_sorted x (py_sorted l')
  end.

(** [df[labels]] with a list key: for each requested label, every column
    carrying it, in order; a missing label raises [KeyError] ([None]). *)
Definition columns_with (l : string) (cs : list (string * list cell))
    : list (string * list cell) :=
  filter (fun column => String.eqb (fst column) l) cs.

Definition select_columns (ls : list string) (t : table) : option table :=
  if forallb (fun l => py_in l (labels t)) ls then
    Some (mkTable (index_name t) (columns_name t) (index t)
            (flat_map (fun l => columns_with l (cols t)) ls))
  else None.

(** [df.mean(axis=1)] with the default [skipna=True]: the mean of the
    non-null cells of the row; NaN when there are none. *)
Definition non_null (vs : list cell) : list Q :=
  flat_map (fun v => match v with Some x => [x] | None => [] end) vs.

Definition mean_skipna (vs : list cell) : cell :=
  match non_null vs with
  | [] => None
  | xs => Some (fold_right Qplus 0 xs / inject_Z (Z.of_nat (length xs)))
  end.

Definition row_means (t : table) : list cell :=
  map (fun r => mean_skipna (map (cell_at r) (cols t)))
      (seq 0 (length (index t))).

(** [df[name] = values]: overwrite the column of that label, or append a new
    column at the end. *)
Definition set_column (name : string) (vals : list cell) (t : table) : table :=
  mkTable (index_name t) (columns_name t) (index t)
    (if py_in name (labels t)
     then map (fun column =>
                 if String.eqb (fst column) name then (name, vals) else column)
              (cols t)
     else (cols t ++ [(name, vals)])%list).

(** ** Effects: a small state-and-exception monad over the world the
    script acts on: the log of externally visible actions (the console
    output is not modelled) and whether "visual.html" can be written. *)
Inductive exn : Type :=
  | ValueError
  | KeyError
  | PlotlyError
  | OSError.

Inductive event : Type :=
  | ShowFigure
  | WriteHtml (path : string).

Record world : Type := mkWorld {
  log : list event;
  html_writable : bool
}.

Inductive result (A : Type) : Type :=
  | Ok (a : A)
  | Err (e : exn).
Arguments Ok {A} a.
Arguments Err {A} e.

Definition M (A : Type) : Type := world -> result A * world.

Definition ret {A : Type} (a : A) : M A := fun s => (Ok a, s).

Definition bind {A B : Type} (m : M A) (k : A -> M B) : M B :=
  fun s => match m s with
           | (Ok a, s') => k a s'
           | (Err e, s') => (Err e, s')
           end.

Definition raise {A : Type} (e : exn) : M A := fun s => (Err e, s).

Definition emit (e : event) : M unit :=
  fun s => (Ok tt, mkWorld (log s ++ [e])%list (html_writable s)).

(** A Python expression that either yields a value or raises. *)
Definition lift {A : Type} (e : exn) (o : option A) : M A :=
  match o with Some a => ret a | None => raise e end.

Notation "x <- m ;; k" := (bind m (fun x => k))
  (at level 61, m at next level, right associativity).
Notation "m ;;; k" := (bind m (fun _ => k))
  (at level 61, right associativity).

(** ** create_chart, lines 6-68.  The figure is returned so that its
    contents can be stated; the Python function returns [None]. *)
Record figure : Type := mkFigure {
  fig_data : table;
  fig_traces : list (string * vis);
  fig_buttons : list button
}.

(** Whether a list of labels repeats one. *)
Fixpoint has_dup (l : list string) : bool :=
  match l with
  | [] => false
  | x :: l' => py_in x l' || has_dup l'
  end.

(** [px.line(df, x=df.index, y=df.columns, ...)], line 18: plotly express
    refuses a wide-form table whose column labels repeat. *)
Definition px_line (df : table) : M figure :=
  if has_dup (labels df) then raise PlotlyError
  else ret (mkFigure df (map (fun c => (c, VTrue)) (labels df)) []).

(** [fig.write_html(path)], line 68: raises when the file cannot be
    written. *)
Definition write_html (path : string) : M unit :=
  fun s => if html_writable s
           then (Ok tt, mkWorld (log s ++ [WriteHtml path])%list (html_writable s))
           else (Err OSError, s).

Definition create_chart (fo : filter_options) (df : table) : M figure :=
  fig <- px_line df ;;
  let fig := mkFigure (fig_data fig)
               (map (fun tr => (fst tr, VLegendonly)) (fig_traces fig))
               (chart_buttons fo (labels df)) in
  emit ShowFigure ;;;
  write_html "visual.html" ;;;
  ret fig.

(** ** main, lines 149-165, from the fetched table [sanit_df] (after
    [set_index("Country")]) on.  [main_prepare] is lines 149-163, up to
    the arguments of [create_chart]. *)
Definition income_grps : list string :=
  ["Low income"; "Lower middle income"; "Upper middle income"; "High income"].

Definition region_grps : list string :=
  ["East Asia & Pacific"; "Europe & Central Asia"; "Latin America & Caribbean";
   "Middle East & North Africa"; "North America"; "South Asia";
   "Sub-Saharan Africa"].

Definition main_prepare (sanit_df : table) : M (filter_options * table) :=
  let sanit_df := preprocess_df sanit_df in
  world_index <- lift ValueError (list_index "World" (labels sanit_df)) ;;
  let countries := py_sorted (firstn world_index (labels sanit_df)) in
  sel <- lift KeyError (select_columns countries sanit_df) ;;
  let sanit_df := set_column "Country_Avg_line" (row_means sel) sanit_df in
  let countries := "Country_Avg_line" :: countries in
  sanit_df <- lift KeyError
                (select_columns (countries ++ region_grps ++ income_grps)%list sanit_df) ;;
  let fo := [("Countries", countries); ("Income Groups", income_grps);
             ("Regions", region_grps)] in
  ret (fo, sanit_df).

Definition main_from_fetched (sanit_df : table) : M figure :=
  args <- main_prepare sanit_df ;;
  create_chart (fst args) (snd args).

(** A run starts with nothing shown or written, in a directory where
    "visual.html" can be written. *)
Definition start_world : world := mkWorld [] true.

(** ** Auxiliary definitions for the statements *)

(** The filter options [main] builds, for a given sorted country list. *)
Definition main_filter_options (countries : list string) : filter_options :=
  [("Countries", "Country_Avg_line" :: countries); ("Income Groups", income_grps);
   ("Regions", region_grps)].

(** The reading of step 3 as "strip the prefix token YR" (for comparison
    with [replace_YR]): drop a leading "YR", leave the rest untouched. *)
Definition strip_prefix_YR (s : string) : string :=
  match s with
  | String "Y"%char (String "R"%char rest) => rest
  | _ => s
  end.

Definition preprocess_df_prefix_reading (df : table) : table :=
  let df := dropna_columns_all df in
  let df := dropna_rows_all df in
  let df := mkTable (index_name df) (columns_name df) (index df)
              (map (fun column => (strip_prefix_YR (fst column), snd column))
                   (cols df)) in
  name_axes (transpose (df_round1 df)).

(** The cells of the first column carrying label [l]. *)
Definition column_cells (l : string) (t : table) : list cell :=
  match columns_with l (cols t) with
  | column :: _ => snd column
  | [] => []
  end.

(** The number of categories whose option list contains [l]. *)
Definition count_categories (l : string) (fo : filter_options) : nat :=
  length (filter (fun kv => py_in l (snd kv)) fo).

(** A sample fetched table: two countries, the "World" aggregate, the
    region and income groups, one year with data and one without. *)
Definition sample_raw : table :=
  mkTable (Some "Country") None
    (["B"; "A"; "World"] ++ region_grps ++ income_grps)%list
    [("YR2000", map (fun k => Some (inject_Z (Z.of_nat k))) (seq 1 14));
     ("YR2001", repeat None 14)].

Definition empty_figure : figure := mkFigure (mkTable None None [] []) [] [].

Definition sample_fig : figure :=
  match fst (main_from_fetched sample_raw start_world) with
  | Ok f => f
  | Err _ => empty_figure
  end.

(** The same table with the region "South Asia" listed before "World". *)
Definition sample_raw_region_first : table :=
  mkTable (Some "Country") None
    (["South Asia"; "A"; "World"; "East Asia & Pacific"; "Europe & Central Asia";
      "Latin America & Caribbean"; "Middle East & North Africa"; "North America";
      "Sub-Saharan Africa"] ++ income_grps)%list
    [("YR2000", map (fun k => Some (inject_Z (Z.of_nat k))) (seq 1 13))].

(** A fetched table with "World" but without the region and income rows. *)
Definition sample_raw_no_groups : table :=
  mkTable (Some "Country") None ["A"; "World"] [("YR2000", [Some 10; Some 20])].

(** * Properties *)

(** ** Visibility vectors *)

Lemma category_visibility_nth (fo : filter_options) (columns : list string)
    (j : nat) (k : string) :
  nth_error (category_list fo) j = Some k ->
  nth_error (category_visibility_list fo columns) j =
    Some (visibility_list k (options_of fo k) columns).
Proof.
  intro Hj. unfold category_visibility_list.
  rewrite nth_error_map, Hj. reflexivity.
Qed.

Lemma visibility_list_nth (k : string) (opts columns : list string) (i : nat)
    (c : string) :
  nth_error columns i = Some c ->
  nth_error (visibility_list k opts columns) i = Some (visibility_entry k opts c).
Proof.
  intro Hi. unfold visibility_list. rewrite nth_error_map, Hi. reflexivity.
Qed.

(** The entry of column [i] in the vector of the [j]-th category. *)
Lemma category_entry (fo : filter_options) (columns : list string)
    (j i : nat) (k c : string) :
  nth_error (category_list fo) j = Some k ->
  nth_error columns i = Some c ->
  nth_error (nth j (category_visibility_list fo columns) []) i =
    Some (visibility_entry k (options_of fo k) c).
Proof.
  intros Hj Hi.
  rewrite (nth_error_nth _ _ _ (category_visibility_nth fo columns j k Hj)).
  apply visibility_list_nth; exact Hi.
Qed.

Lemma enumerate_buttons_map (g : string -> list vis) (keys : list string) :
  enumerate_buttons keys (map g keys) =
    map (fun k => mkButton k "restyle" "visible" (g k)) keys.
Proof.
  induction keys as [| k keys IH]; simpl; [reflexivity | now rewrite IH].
Qed.

Lemma chart_buttons_eq (fo : filter_options) (columns : list string) :
  chart_buttons fo columns =
    all_button columns
      :: map (fun k => mkButton k "restyle" "visible"
                         (visibility_list k (options_of fo k) columns))
             (dict_keys fo).
Proof.
  unfold chart_buttons, category_visibility_list, category_list.
  now rewrite enumerate_buttons_map.
Qed.

(** C1 (counterexample): with the filter options of [main], the aggregate
    column "Country_Avg_line" is hidden ([False]), not shown, in the vector of
    the "Income Groups" category, because it is not in that option list. *)
Lemma C1_avg_hidden_outside_category :
  nth_error (nth 1 (category_visibility_list (main_filter_options [])
                      ["Country_Avg_line"]) []) 0 = Some VFalse /\
  nth_error (category_list (main_filter_options [])) 1 = Some "Income Groups".
Proof. split; reflexivity. Qed.

(** C1 (amended): in the vector of every category, the entry of the
    aggregate column "Country_Avg_line" is fully shown ([True]) when the
    column is in that category's option list and hidden ([False]) otherwise,
    whatever the category. *)
Theorem C1_avg_entry (fo : filter_options) (columns : list string)
    (j i : nat) (k : string) :
  nth_error (category_list fo) j = Some k ->
  nth_error columns i = Some "Country_Avg_line" ->
  nth_error (nth j (category_visibility_list fo columns) []) i =
    Some (if py_in "Country_Avg_line" (options_of fo k) then VTrue else VFalse).
Proof.
  intros Hj Hi. rewrite (category_entry fo columns j i k _ Hj Hi).
  unfold visibility_entry. destruct (py_in _ _); reflexivity.
Qed.

Lemma C1_avg_entry_witness :
  nth_error (nth 0 (category_visibility_list (main_filter_options ["A"])
                      ["Country_Avg_line"; "A"]) []) 0 = Some VTrue.
Proof.
  apply (C1_avg_entry (main_filter_options ["A"]) ["Country_Avg_line"; "A"] 0 0
           "Countries"); reflexivity.
Defined.

(** C2: in the vector of "Countries", a member column other than
    "Country_Avg_line" is collapsed in the legend, the member column
    "Country_Avg_line" is fully shown and a non-member is hidden; in the
    vector of any other category a member is fully shown and a non-member is
    hidden. *)
Theorem C2_category_entries (fo : filter_options) (columns : list string)
    (j i : nat) (k c : string) :
  nth_error (category_list fo) j = Some k ->
  nth_error columns i = Some c ->
  let entry := nth_error (nth j (category_visibility_list fo columns) []) i in
  let member := py_in c (options_of fo k) in
  (k = "Countries" ->
     (member = true -> c <> "Country_Avg_line" -> entry = Some VLegendonly) /\
     (member = true -> c = "Country_Avg_line" -> entry = Some VTrue) /\
     (member = false -> entry = Some VFalse)) /\
  (k <> "Countries" ->
     (member = true -> entry = Some VTrue) /\
     (member = false -> entry = Some VFalse)).
Proof.
  intros Hj Hi entry member. subst entry member.
  rewrite (category_entry fo columns j i k c Hj Hi). unfold visibility_entry.
  split; intro Hk.
  - subst k. repeat split; intros Hm; rewrite Hm; try intros Hc.
    + apply String.eqb_neq in Hc. now rewrite Hc.
    + subst c. reflexivity.
    + reflexivity.
  - apply String.eqb_neq in Hk. split; intro Hm; rewrite Hm; [| reflexivity].
    destruct (String.eqb c "Country_Avg_line"); [reflexivity | now rewrite Hk].
Qed.

Lemma C2_category_entries_witness :
  nth_error (nth 0 (category_visibility_list (main_filter_options ["A"])
                      ["Country_Avg_line"; "A"]) []) 1 = Some VLegendonly.
Proof.
  pose proof (C2_category_entries (main_filter_options ["A"])
                ["Country_Avg_line"; "A"] 0 1 "Countries" "A"
                eq_refl eq_refl) as H.
  simpl in H. destruct H as [H _].
  apply (proj1 (H eq_refl)); [reflexivity | discriminate].
Defined.

(** C3: the "All" option comes first; its vector has one entry per table
    column, and every entry is ['legendonly']. *)
Theorem C3_all_vector (fo : filter_options) (columns : list string) :
  exists b rest,
    chart_buttons fo columns = b :: rest /\
    b_label b = "All" /\
    length (b_arg_visible b) = length columns /\
    (forall v, In v (b_arg_visible b) -> v = VLegendonly).
Proof.
  exists (all_button columns).
  exists (enumerate_buttons (category_list fo) (category_visibility_list fo columns)).
  split; [reflexivity | split; [reflexivity | split]].
  - simpl. now rewrite length_map, length_seq.
  - simpl. intros v Hv. apply in_map_iff in Hv. destruct Hv as [x [Hx _]].
    now subst v.
Qed.

(** C4: with [n] categories the dropdown has [n + 1] options: "All" first,
    then one per category in the dict's order, the [(j+1)]-th carrying the
    [j]-th category's visibility vector. *)
Theorem C4_dropdown (fo : filter_options) (columns : list string) :
  length (chart_buttons fo columns) = (length (dict_keys fo) + 1)%nat /\
  map b_label (chart_buttons fo columns) = "All" :: dict_keys fo /\
  (forall j k, nth_error (dict_keys fo) j = Some k ->
     nth_error (chart_buttons fo columns) (S j) =
       Some (mkButton k "restyle" "visible"
               (visibility_list k (options_of fo k) columns))).
Proof.
  rewrite chart_buttons_eq. split; [| split].
  - simpl. rewrite length_map. lia.
  - simpl. rewrite map_map. simpl. now rewrite map_id.
  - intros j k Hj. simpl. rewrite nth_error_map, Hj. reflexivity.
Qed.

(** ** The reshaper *)

Lemma labels_dropna_rows_all (t : table) :
  labels (dropna_rows_all t) = labels t.
Proof. unfold labels, dropna_rows_all; simpl. now rewrite map_map. Qed.

Lemma labels_df_round1 (t : table) : labels (df_round1 t) = labels t.
Proof. unfold labels, df_round1; simpl. now rewrite map_map. Qed.

Lemma labels_rename_columns_YR (t : table) :
  labels (rename_columns_YR t) = map replace_YR (labels t).
Proof. unfold labels, rename_columns_YR; simpl. now rewrite !map_map. Qed.

(** The row index of the reshaped table: the renamed labels of the columns
    that hold a value. *)
Lemma preprocess_df_index (df : table) :
  index (preprocess_df df) =
    map (fun column => replace_YR (fst column)) (filter column_has_value (cols df)).
Proof.
  unfold preprocess_df, name_axes, transpose; simpl.
  rewrite labels_df_round1, labels_rename_columns_YR, labels_dropna_rows_all.
  unfold labels, dropna_columns_all; simpl. now rewrite map_map.
Qed.

(** C5 (counterexample): step 3 removes "YR" wherever it occurs in a label,
    not only as a prefix: a column labelled "2000YR" becomes the row "2000",
    where stripping a prefix would leave "2000YR". *)
Lemma C5_YR_removed_everywhere :
  let df := mkTable (Some "Country") None ["A"] [("2000YR", [Some 1])] in
  index (preprocess_df df) = ["2000"] /\
  index (preprocess_df_prefix_reading df) = ["2000YR"].
Proof. split; reflexivity. Qed.

(** C5 (amended): [preprocess_df] is, in this order, dropping the all-null
    columns, dropping the rows null in every remaining column, removing every
    occurrence of "YR" from the column labels, rounding to one decimal,
    transposing, and naming the row axis "Year" (the column axis unnamed);
    so the rows of the result are the renamed labels of the kept columns. *)
Theorem C5_preprocess_steps (df : table) :
  preprocess_df df =
    name_axes (transpose (df_round1 (rename_columns_YR
      (dropna_rows_all (dropna_columns_all df))))) /\
  index (preprocess_df df) =
    map (fun column => replace_YR (fst column)) (filter column_has_value (cols df)) /\
  index_name (preprocess_df df) = Some "Year" /\
  columns_name (preprocess_df df) = None.
Proof.
  split; [reflexivity | split; [apply preprocess_df_index | split; reflexivity]].
Qed.

Lemma column_has_value_spec (column : string * list cell) :
  column_has_value column = true <-> exists x, In (Some x) (snd column).
Proof.
  unfold column_has_value. rewrite existsb_exists. split.
  - intros [v [Hin Hv]]. destruct v as [x |]; [now exists x | discriminate].
  - intros [x Hx]. now exists (Some x).
Qed.

(** C6: the first step keeps exactly the columns holding a non-null cell,
    in their order, and drops exactly those whose cells are all null; the
    later steps drop no column, so the reshaped table has one row per kept
    column. *)
Theorem C6_drop_all_null_columns (df : table) :
  cols (dropna_columns_all df) = filter column_has_value (cols df) /\
  (forall column, In column (cols df) ->
     (In column (cols (dropna_columns_all df)) <->
      exists x, In (Some x) (snd column))) /\
  index (preprocess_df df) =
    map (fun column => replace_YR (fst column)) (filter column_has_value (cols df)).
Proof.
  split; [reflexivity | split; [| apply preprocess_df_index]].
  intros column Hin. simpl. rewrite filter_In, <- column_has_value_spec.
  tauto.
Qed.

(** ** Rounding *)

Lemma round_half_even_Z (q : Q) (z : Z) :
  q == inject_Z z -> round_half_even q = z.
Proof.
  intro Hq. unfold round_half_even.
  assert (Hf : Qfloor q = z) by (rewrite Hq; apply Qfloor_Z).
  rewrite Hf.
  assert (H0 : q - inject_Z z == 0) by (rewrite Hq; ring).
  rewrite H0. reflexivity.
Qed.

Lemma round1_tenths (z : Z) : round1 (Qmake z 10) = Qmake z 10.
Proof.
  unfold round1. f_equal. apply round_half_even_Z.
  unfold Qeq, inject_Z; simpl. lia.
Qed.

Lemma round_half_even_compat (q q' : Q) :
  q == q' -> round_half_even q = round_half_even q'.
Proof.
  intro Hq. unfold round_half_even.
  rewrite (Qfloor_comp q q' Hq).
  assert (Hd : q - inject_Z (Qfloor q') == q' - inject_Z (Qfloor q'))
    by (rewrite Hq; reflexivity).
  rewrite Hd. reflexivity.
Qed.

(** C9: a value already at one decimal place ([z / 10]) is left unchanged
    by the rounding of [df.round(1)]; hence rounding a cell twice is the
    same as rounding it once. *)
Theorem C9_round1_idempotent (x : Q) :
  (exists z : Z, x == Qmake z 10) ->
  round1 x == x /\
  (forall c : cell, round_cell (round_cell c) = round_cell c).
Proof.
  intros [z Hz]. split.
  - unfold round1. rewrite (round_half_even_compat (x * 10) (Qmake z 10 * 10))
      by (rewrite Hz; reflexivity).
    fold (round1 (Qmake z 10)). rewrite round1_tenths. now rewrite Hz.
  - intros [y |]; [| reflexivity]. simpl. f_equal.
    unfold round1 at 1. apply round1_tenths.
Qed.

Lemma C9_round1_idempotent_witness :
  round1 (123 # 10) == 123 # 10 /\
  (forall c : cell, round_cell (round_cell c) = round_cell c).
Proof.
  apply (C9_round1_idempotent (123 # 10)). exists 123%Z. reflexivity.
Defined.

(** ** main *)

Lemma py_in_iff (c : string) (l : list string) : py_in c l = true <-> In c l.
Proof.
  unfold py_in. rewrite existsb_exists. split.
  - intros [x [Hx Heq]]. apply String.eqb_eq in Heq. now subst x.
  - intros H. exists c. split; [exact H | apply String.eqb_refl].
Qed.

Lemma list_index_none (x : string) (l : list string) :
  list_index x l = None <-> ~ In x l.
Proof.
  induction l as [| y l IH]; simpl; [tauto |].
  destruct (String.eqb_spec y x) as [-> | Hne].
  - split; [discriminate | tauto].
  - split.
    + intros H [Hy | Hin]; [congruence |].
      destruct (list_index x l) eqn:E; [discriminate |].
      now apply (proj1 IH).
    + intros H. assert (E : list_index x l = None) by (apply IH; tauto).
      now rewrite E.
Qed.

Lemma list_index_some (x : string) (l : list string) (i : nat) :
  list_index x l = Some i -> nth_error l i = Some x /\ ~ In x (firstn i l).
Proof.
  revert i. induction l as [| y l IH]; intros i H; simpl in H; [discriminate |].
  destruct (String.eqb_spec y x) as [-> | Hne].
  - injection H as <-. simpl. tauto.
  - destruct (list_index x l) as [i' |] eqn:E; simpl in H; [| discriminate].
    injection H as <-. destruct (IH i' eq_refl) as [H1 H2]. simpl.
    split; [exact H1 | intuition congruence].
Qed.

Lemma columns_with_labels (l : string) (cs : list (string * list cell)) :
  NoDup (map fst cs) -> In l (map fst cs) -> map fst (columns_with l cs) = [l].
Proof.
  intros Hnd Hin.
  induction cs as [| [l' v] cs IHc]; simpl in *; [contradiction |].
  inversion Hnd as [| ? ? Hnot Hnd']; subst.
  destruct (String.eqb_spec l' l) as [-> | Hne]; simpl.
  - f_equal. clear - Hnot. induction cs as [| [l'' v'] cs IH]; simpl; [reflexivity |].
    destruct (String.eqb_spec l'' l) as [-> | Hne].
    + exfalso. apply Hnot. now left.
    + apply IH. intro H; apply Hnot; now right.
  - apply IHc; [exact Hnd' | destruct Hin; [congruence | assumption]].
Qed.

Lemma columns_with_single (l : string) (t : table) :
  NoDup (labels t) -> In l (labels t) ->
  columns_with l (cols t) = [(l, column_cells l t)].
Proof.
  intros Hnd Hin. pose proof (columns_with_labels l (cols t) Hnd Hin) as H.
  unfold column_cells. destruct (columns_with l (cols t)) as [| [l' v] [| c rest]];
    simpl in H; try discriminate.
  injection H as ->. reflexivity.
Qed.

Lemma flat_map_columns_with_labels (ls : list string) (cs : list (string * list cell)) :
  NoDup (map fst cs) -> (forall l, In l ls -> In l (map fst cs)) ->
  map fst (flat_map (fun l => columns_with l cs) ls) = ls.
Proof.
  intros Hnd. induction ls as [| l ls IH]; intros Hall; [reflexivity |].
  simpl. rewrite map_app, IH by (intros; apply Hall; now right).
  rewrite (columns_with_labels l cs Hnd) by (apply Hall; now left).
  reflexivity.
Qed.

Lemma select_columns_ok (ls : list string) (t : table) :
  (forall l, In l ls -> In l (labels t)) ->
  select_columns ls t =
    Some (mkTable (index_name t) (columns_name t) (index t)
            (flat_map (fun l => columns_with l (cols t)) ls)).
Proof.
  intro Hall. unfold select_columns.
  replace (forallb _ ls) with true; [reflexivity |].
  symmetry. apply forallb_forall. intros l Hl. apply py_in_iff, Hall, Hl.
Qed.

Lemma labels_set_column (name : string) (vals : list cell) (t : table) :
  labels (set_column name vals t) =
    if py_in name (labels t) then labels t else (labels t ++ [name])%list.
Proof.
  unfold set_column, labels; simpl.
  destruct (py_in name (map fst (cols t))) eqn:E.
  - rewrite map_map. apply map_ext. intros [l v]; simpl.
    destruct (String.eqb_spec l name); simpl; congruence.
  - now rewrite map_app.
Qed.

Lemma set_column_in (name : string) (vals : list cell) (t : table) :
  In (name, vals) (cols (set_column name vals t)).
Proof.
  unfold set_column; simpl. destruct (py_in name (labels t)) eqn:E.
  - apply py_in_iff in E. unfold labels in E. apply in_map_iff in E.
    destruct E as [[l v] [Hl Hin]]; simpl in Hl; subst l.
    apply in_map_iff. exists (name, v). simpl. now rewrite String.eqb_refl.
  - apply in_or_app. right. now left.
Qed.

Lemma set_column_only (name : string) (vals v : list cell) (t : table) :
  In (name, v) (cols (set_column name vals t)) -> v = vals.
Proof.
  unfold set_column; simpl. destruct (py_in name (labels t)) eqn:E; intro H.
  - apply in_map_iff in H. destruct H as [[l w] [Hl _]]; simpl in Hl.
    destruct (String.eqb_spec l name); [congruence |].
    injection Hl as Hl _. congruence.
  - apply in_app_or in H. destruct H as [H | [H | []]]; [| congruence].
    exfalso. assert (Hin : In name (labels t)).
    { unfold labels. apply in_map_iff. now exists (name, v). }
    apply py_in_iff in Hin. congruence.
Qed.

Lemma set_column_nodup (name : string) (vals : list cell) (t : table) :
  NoDup (labels t) -> NoDup (labels (set_column name vals t)).
Proof.
  intro Hnd. rewrite labels_set_column.
  destruct (py_in name (labels t)) eqn:E; [exact Hnd |].
  apply (Permutation_NoDup (Permutation_cons_append (labels t) name)).
  constructor; [| exact Hnd]. intro Hin. apply py_in_iff in Hin. congruence.
Qed.

(** *** [sorted]: code-point order *)

Definition str_le (a b : string) : Prop := String.leb a b = true.

Lemma insert_sorted_perm (x : string) (l : list string) :
  Permutation (insert_sorted x l) (x :: l).
Proof.
  induction l as [| y l IH]; simpl; [reflexivity |].
  destruct (String.leb x y); [reflexivity |].
  rewrite IH. apply perm_swap.
Qed.

Lemma py_sorted_perm (l : list string) : Permutation (py_sorted l) l.
Proof.
  induction l as [| x l IH]; simpl; [reflexivity |].
  rewrite insert_sorted_perm. now apply perm_skip.
Qed.

Lemma insert_sorted_sorted (x : string) (l : list string) :
  Sorted str_le l -> Sorted str_le (insert_sorted x l).
Proof.
  induction l as [| y l IH]; intro Hs; simpl.
  - repeat constructor.
  - destruct (String.leb x y) eqn:Exy.
    + constructor; [exact Hs | now constructor].
    + assert (Hyx : str_le y x).
      { destruct (String.leb_total x y) as [H | H]; [congruence | exact H]. }
      inversion Hs as [| ? ? Hs' Hhd]; subst.
      constructor; [now apply IH |].
      destruct l as [| z l']; simpl; [now constructor |].
      destruct (String.leb x z); constructor; [exact Hyx |].
      now inversion Hhd.
Qed.

Lemma py_sorted_sorted (l : list string) : Sorted str_le (py_sorted l).
Proof.
  induction l as [| x l IH]; simpl; [constructor | now apply insert_sorted_sorted].
Qed.

(** *** The run of main, step by step *)

Lemma firstn_labels_in (t : table) (wi : nat) (l : string) :
  In l (py_sorted (firstn wi (labels t))) -> In l (labels t).
Proof.
  intro H. apply (Permutation_in _ (py_sorted_perm _)) in H.
  rewrite <- (firstn_skipn wi (labels t)). apply in_or_app. now left.
Qed.

Lemma main_from_fetched_eq (raw : table) (s : world) :
  main_from_fetched raw s =
    match main_prepare raw s with
    | (Ok args, s') => create_chart (fst args) (snd args) s'
    | (Err e, s') => (Err e, s')
    end.
Proof. reflexivity. Qed.

(** Lines 149-163 never touch the world; they raise [ValueError] without a
    "World" column, [KeyError] when a requested column is missing, and
    otherwise hand the filter options and the selected table on. *)
Lemma main_prepare_spec (raw : table) (s : world) :
  main_prepare raw s =
    match list_index "World" (labels (preprocess_df raw)) with
    | None => (Err ValueError, s)
    | Some wi =>
        let t := preprocess_df raw in
        let cs := py_sorted (firstn wi (labels t)) in
        let sel := mkTable (index_name t) (columns_name t) (index t)
                     (flat_map (fun l => columns_with l (cols t)) cs) in
        let t2 := set_column "Country_Avg_line" (row_means sel) t in
        match select_columns (("Country_Avg_line" :: cs) ++ region_grps ++ income_grps)%list t2
        with
        | None => (Err KeyError, s)
        | Some final => (Ok (main_filter_options cs, final), s)
        end
    end.
Proof.
  unfold main_prepare. cbv zeta. unfold bind at 1, lift at 1.
  destruct (list_index "World" (labels (preprocess_df raw))) as [wi |];
    [| reflexivity].
  unfold ret at 1.
  rewrite select_columns_ok by (apply firstn_labels_in).
  unfold bind at 1, lift at 1, ret at 1.
  unfold bind at 1, lift at 1.
  destruct (select_columns _ _); reflexivity.
Qed.

(** [create_chart]: [px.line] raises on repeated labels before anything is
    shown; otherwise the figure is shown, then written when the file can
    be. *)
Lemma create_chart_spec (fo : filter_options) (df : table) (s : world) :
  create_chart fo df s =
    if has_dup (labels df) then (Err PlotlyError, s)
    else if html_writable s
    then (Ok (mkFigure df (map (fun c => (c, VLegendonly)) (labels df))
                (chart_buttons fo (labels df))),
          mkWorld (log s ++ [ShowFigure; WriteHtml "visual.html"])%list (html_writable s))
    else (Err OSError, mkWorld (log s ++ [ShowFigure])%list (html_writable s)).
Proof.
  unfold create_chart, px_line. destruct (has_dup (labels df)); [reflexivity |].
  unfold bind, ret, emit, write_html. cbn [log html_writable fig_data fig_traces].
  rewrite map_map. cbn [fst].
  destruct (html_writable s); [| reflexivity].
  now rewrite <- app_assoc.
Qed.

(** C8: when the reshaped table has no column labelled "World",
    [list.index] raises [ValueError], nothing catches it, and the program
    stops with the world unchanged: no figure is shown and no HTML file is
    written. *)
Theorem C8_no_world_raises (raw : table) (s : world) :
  ~ In "World" (labels (preprocess_df raw)) ->
  main_from_fetched raw s = (Err ValueError, s).
Proof.
  intro H. apply list_index_none in H.
  rewrite main_from_fetched_eq, main_prepare_spec, H. reflexivity.
Qed.

Lemma C8_no_world_raises_witness :
  ~ In "World" (labels (preprocess_df (mkTable None None [] []))) /\
  main_from_fetched (mkTable None None [] []) start_world = (Err ValueError, start_world).
Proof.
  assert (H : ~ In "World" (labels (preprocess_df (mkTable None None [] []))))
    by (simpl; tauto).
  split; [exact H | apply (C8_no_world_raises _ start_world H)].
Defined.

(** *** A run of main that reaches [create_chart] *)

Lemma main_prepare_ok_inv (raw : table) (s s' : world) (fo : filter_options)
    (final : table) :
  main_prepare raw s = (Ok (fo, final), s') ->
  exists wi sel t2,
    let t := preprocess_df raw in
    let countries := py_sorted (firstn wi (labels t)) in
    let req := (("Country_Avg_line" :: countries) ++ region_grps ++ income_grps)%list in
    list_index "World" (labels t) = Some wi /\
    sel = mkTable (index_name t) (columns_name t) (index t)
            (flat_map (fun l => columns_with l (cols t)) countries) /\
    t2 = set_column "Country_Avg_line" (row_means sel) t /\
    (forall l, In l req -> In l (labels t2)) /\
    final = mkTable (index_name t2) (columns_name t2) (index t2)
              (flat_map (fun l => columns_with l (cols t2)) req) /\
    fo = main_filter_options countries /\
    s' = s.
Proof.
  intro H. rewrite main_prepare_spec in H.
  destruct (list_index "World" (labels (preprocess_df raw))) as [wi |] eqn:Ew;
    [| discriminate H].
  exists wi. eexists. eexists. cbv zeta in *.
  set (t2 := set_column _ _ _) in *.
  destruct (select_columns _ t2) as [fin |] eqn:Es; [| discriminate H].
  injection H as <- <- <-.
  unfold select_columns in Es.
  destruct (forallb _ _) eqn:Ef; [| discriminate Es].
  injection Es as <-.
  split; [exact Ew | split; [reflexivity | split; [reflexivity |]]].
  split; [| split; [reflexivity | split; reflexivity]].
  intros l Hl. rewrite forallb_forall in Ef. apply py_in_iff, Ef, Hl.
Qed.

Lemma main_ok_inv (raw : table) (s s' : world) (fig : figure) :
  main_from_fetched raw s = (Ok fig, s') ->
  exists wi sel t2,
    let t := preprocess_df raw in
    let countries := py_sorted (firstn wi (labels t)) in
    let req := (("Country_Avg_line" :: countries) ++ region_grps ++ income_grps)%list in
    list_index "World" (labels t) = Some wi /\
    sel = mkTable (index_name t) (columns_name t) (index t)
            (flat_map (fun l => columns_with l (cols t)) countries) /\
    t2 = set_column "Country_Avg_line" (row_means sel) t /\
    (forall l, In l req -> In l (labels t2)) /\
    fig_data fig = mkTable (index_name t2) (columns_name t2) (index t2)
                     (flat_map (fun l => columns_with l (cols t2)) req) /\
    fig_buttons fig = chart_buttons (main_filter_options countries)
                        (labels (fig_data fig)) /\
    has_dup (labels (fig_data fig)) = false /\
    html_writable s = true /\
    s' = mkWorld (log s ++ [ShowFigure; WriteHtml "visual.html"])%list (html_writable s).
Proof.
  intro H. rewrite main_from_fetched_eq in H.
  destruct (main_prepare raw s) as [[[fo final] | e] s1] eqn:Ep; [| discriminate H].
  destruct (main_prepare_ok_inv _ _ _ _ _ Ep) as (wi & sel & t2 & Hp).
  cbv zeta in Hp. destruct Hp as (Hw & Hsel & Ht2 & Hreq & Hfin & Hfo & ->).
  rewrite create_chart_spec in H. cbn [fst snd] in H.
  destruct (has_dup (labels final)) eqn:Ed; [discriminate H |].
  destruct (html_writable s) eqn:Eh; [| discriminate H].
  injection H as <- <-. cbn [fig_data fig_buttons].
  exists wi, sel, t2. cbv zeta.
  rewrite <- Hfin, <- Hfo.
  repeat split; assumption.
Qed.

Lemma row_means_nth (t : table) (r : nat) :
  (r < length (index t))%nat ->
  nth r (row_means t) None = mean_skipna (map (cell_at r) (cols t)).
Proof.
  intro Hr. apply nth_error_nth. unfold row_means.
  rewrite nth_error_map, nth_error_seq.
  destruct (Nat.ltb_spec r (length (index t))) as [_ | Hge]; [reflexivity | lia].
Qed.

Lemma length_row_means (t : table) : length (row_means t) = length (index t).
Proof. unfold row_means. now rewrite length_map, length_seq. Qed.

Lemma select_cells_at (ls : list string) (t : table) (r : nat) :
  NoDup (labels t) -> (forall l, In l ls -> In l (labels t)) ->
  map (cell_at r) (flat_map (fun l => columns_with l (cols t)) ls) =
    map (fun l => nth r (column_cells l t) None) ls.
Proof.
  intros Hnd. induction ls as [| l ls IH]; intro Hall; [reflexivity |].
  simpl. rewrite map_app, IH by (intros; apply Hall; now right).
  rewrite (columns_with_single l t Hnd) by (apply Hall; now left).
  reflexivity.
Qed.

Lemma in_final_avg (t2 : table) (req : list string) (vals : list cell) :
  In ("Country_Avg_line", vals) (flat_map (fun l => columns_with l (cols t2)) req) ->
  In ("Country_Avg_line", vals) (cols t2).
Proof.
  intro H. apply in_flat_map in H. destruct H as [l [_ H]].
  unfold columns_with in H. now apply filter_In in H.
Qed.

(** C7: the country list is the labels strictly before the first "World"
    column, sorted in code-point order; every "Country_Avg_line" column of
    the final table holds, in each row, the mean of that row over exactly
    those country columns (pandas' [mean(axis=1)], which skips NaN cells and
    gives NaN when all are NaN). *)
Theorem C7_country_average (raw : table) (s s' : world) (fig : figure)
    (wi : nat) :
  NoDup (labels (preprocess_df raw)) ->
  list_index "World" (labels (preprocess_df raw)) = Some wi ->
  main_from_fetched raw s = (Ok fig, s') ->
  let t := preprocess_df raw in
  let countries := py_sorted (firstn wi (labels t)) in
  nth_error (labels t) wi = Some "World" /\
  ~ In "World" (firstn wi (labels t)) /\
  Permutation countries (firstn wi (labels t)) /\
  Sorted str_le countries /\
  (exists vals, In ("Country_Avg_line", vals) (cols (fig_data fig))) /\
  (forall vals, In ("Country_Avg_line", vals) (cols (fig_data fig)) ->
     length vals = length (index t) /\
     forall r, (r < length (index t))%nat ->
       nth r vals None =
         mean_skipna (map (fun l => nth r (column_cells l t) None) countries)).
Proof.
  intros Hnd Hw Hm t countries.
  destruct (main_ok_inv _ _ _ _ Hm) as (wi' & sel & t2 & H). cbv zeta in H.
  destruct H as [Hw' [Hsel [Ht2 [Hreq [Hdata _]]]]].
  rewrite Hw in Hw'. injection Hw' as <-.
  destruct (list_index_some _ _ _ Hw) as [Hn Hnot].
  split; [exact Hn | split; [exact Hnot |]].
  split; [apply py_sorted_perm | split; [apply py_sorted_sorted |]].
  rewrite Hdata; cbn [cols].
  split.
  - assert (Hin : In "Country_Avg_line" (labels t2)) by (apply Hreq; now left).
    unfold labels in Hin. apply in_map_iff in Hin.
    destruct Hin as [[l v] [Hl Hin]]; simpl in Hl; subst l.
    exists v. apply in_flat_map. exists "Country_Avg_line". split; [now left |].
    unfold columns_with. apply filter_In. split; [exact Hin | apply String.eqb_refl].
  - intros vals Hv. apply in_final_avg in Hv. rewrite Ht2 in Hv.
    apply set_column_only in Hv. subst vals.
    split; [rewrite length_row_means, Hsel; reflexivity |].
    intros r Hr. rewrite row_means_nth by (rewrite Hsel; exact Hr).
    rewrite Hsel; cbn [cols].
    apply f_equal, select_cells_at; [exact Hnd | apply firstn_labels_in].
Qed.

Lemma sample_run :
  main_from_fetched sample_raw start_world =
    (Ok sample_fig, mkWorld [ShowFigure; WriteHtml "visual.html"] true).
Proof. vm_compute. reflexivity. Qed.

Lemma sample_labels_nodup : NoDup (labels (preprocess_df sample_raw)).
Proof. vm_compute. repeat constructor; simpl; intuition discriminate. Qed.

Lemma C7_country_average_witness :
  let t := preprocess_df sample_raw in
  let countries := py_sorted (firstn 2 (labels t)) in
  nth_error (labels t) 2 = Some "World" /\
  ~ In "World" (firstn 2 (labels t)) /\
  Permutation countries (firstn 2 (labels t)) /\
  Sorted str_le countries /\
  (exists vals, In ("Country_Avg_line", vals) (cols (fig_data sample_fig))) /\
  (forall vals, In ("Country_Avg_line", vals) (cols (fig_data sample_fig)) ->
     length vals = length (index t) /\
     forall r, (r < length (index t))%nat ->
       nth r vals None =
         mean_skipna (map (fun l => nth r (column_cells l t) None) countries)).
Proof.
  apply (C7_country_average sample_raw start_world
           (mkWorld [ShowFigure; WriteHtml "visual.html"] true)
           sample_fig 2 sample_labels_nodup);
    [vm_compute; reflexivity | exact sample_run].
Defined.

Lemma py_in_false (c : string) (l : list string) : ~ In c l -> py_in c l = false.
Proof.
  intro H. destruct (py_in c l) eqn:E; [| reflexivity].
  apply py_in_iff in E. contradiction.
Qed.

Lemma count_main_filter_options (l : string) (cs : list string) :
  count_categories l (main_filter_options cs) =
    (Nat.b2n (py_in l ("Country_Avg_line" :: cs)) +
     Nat.b2n (py_in l income_grps) + Nat.b2n (py_in l region_grps))%nat.
Proof.
  unfold count_categories, main_filter_options. cbn [filter snd].
  destruct (py_in l ("Country_Avg_line" :: cs)), (py_in l income_grps),
    (py_in l region_grps); reflexivity.
Qed.

Lemma region_not_income (l : string) : In l region_grps -> py_in l income_grps = false.
Proof. intro H. simpl in H. intuition (subst; reflexivity). Qed.

Lemma income_not_region (l : string) : In l income_grps -> py_in l region_grps = false.
Proof. intro H. simpl in H. intuition (subst; reflexivity). Qed.

Lemma avg_not_group :
  py_in "Country_Avg_line" region_grps = false /\
  py_in "Country_Avg_line" income_grps = false.
Proof. split; reflexivity. Qed.

Lemma has_dup_spec (l : list string) : has_dup l = false <-> NoDup l.
Proof.
  induction l as [| x l IH]; simpl; [split; [constructor | reflexivity] |].
  rewrite Bool.orb_false_iff, IH, NoDup_cons_iff.
  split; intros [H1 H2]; split; try assumption.
  - intro Hin. apply py_in_iff in Hin. congruence.
  - now apply py_in_false.
Qed.

Lemma NoDup_app_disjoint {A : Type} (l1 l2 : list A) (a : A) :
  NoDup (l1 ++ l2) -> In a l1 -> In a l2 -> False.
Proof.
  induction l1 as [| x l1 IH]; simpl; [tauto |].
  intros Hnd [<- | Ha] Hb; apply NoDup_cons_iff in Hnd.
  - apply (proj1 Hnd). apply in_or_app. now right.
  - exact (IH (proj2 Hnd) Ha Hb).
Qed.

Lemma NoDup_firstn_labels (l : list string) (n : nat) : NoDup l -> NoDup (firstn n l).
Proof.
  intro H. rewrite <- (firstn_skipn n l) in H. exact (NoDup_app_remove_r _ _ H).
Qed.

Lemma groups_nodup : NoDup (region_grps ++ income_grps)%list.
Proof. apply has_dup_spec. reflexivity. Qed.

(** No label before "World" is a region, an income group or the aggregate
    column. *)
Definition countries_only (t : table) (wi : nat) : Prop :=
  forall l, In l (firstn wi (labels t)) ->
    ~ In l region_grps /\ ~ In l income_grps /\ l <> "Country_Avg_line".

(** The columns main requests are distinct exactly when the labels before
    "World" are countries only. *)
Lemma requested_nodup_iff (t : table) (wi : nat) :
  NoDup (labels t) ->
  NoDup (("Country_Avg_line" :: py_sorted (firstn wi (labels t)))
           ++ region_grps ++ income_grps)%list <->
  countries_only t wi.
Proof.
  intro Hnd. set (cs := py_sorted (firstn wi (labels t))).
  assert (Hcs : forall l, In l cs <-> In l (firstn wi (labels t))).
  { intro l. split; apply Permutation_in; [| symmetry]; apply py_sorted_perm. }
  cbn [app]. rewrite NoDup_cons_iff. unfold countries_only. split.
  - intros [Havg Hnd'] l Hl. apply Hcs in Hl.
    split; [| split].
    + intro Hr. apply (NoDup_app_disjoint _ _ _ Hnd' Hl).
      apply in_or_app. now left.
    + intro Hi. apply (NoDup_app_disjoint _ _ _ Hnd' Hl).
      apply in_or_app. now right.
    + intros ->. apply Havg. apply in_or_app. now left.
  - intros Hc. split.
    + intro Hin. apply in_app_or in Hin. destruct Hin as [Hin | Hin].
      * apply Hcs, Hc in Hin. tauto.
      * destruct avg_not_group as [Ha1 Ha2].
        apply in_app_or in Hin. destruct Hin as [Hin | Hin];
          apply py_in_iff in Hin; congruence.
    + apply NoDup_app; [| exact groups_nodup |].
      * apply (Permutation_NoDup (Permutation_sym (py_sorted_perm _))).
        now apply NoDup_firstn_labels.
      * intros l Hl Hin. apply Hcs, Hc in Hl.
        apply in_app_or in Hin. tauto.
Qed.

(** C10 (counterexample): when a region label ("South Asia") comes before
    "World" in the reshaped table, it is taken as a country, so the table
    main passes to [create_chart] holds it twice and it belongs to two
    categories, "Countries" and "Regions"; [px.line] then refuses the
    repeated label and the program stops with nothing shown or written. *)
Lemma C10_region_before_world :
  match main_prepare sample_raw_region_first start_world with
  | (Ok (fo, final), _) =>
      labels final =
        (["Country_Avg_line"; "A"; "South Asia"] ++ region_grps ++ income_grps)%list /\
      fo = main_filter_options ["A"; "South Asia"] /\
      count_categories "South Asia" fo = 2%nat
  | (Err _, _) => False
  end /\
  main_from_fetched sample_raw_region_first start_world = (Err PlotlyError, start_world).
Proof. vm_compute. split; [split; [reflexivity | split; reflexivity] | reflexivity]. Qed.

(** C10 (amended): when the reshaped table has distinct labels and main
    reaches the call of [create_chart], the table it passes has the
    columns, in order, "Country_Avg_line", the labels before "World" in
    code-point order, the seven regions and the four income groups, and the
    filter options are the three categories over these lists; every column
    belongs to at least one category.  The columns are distinct, and each
    belongs to exactly one category, exactly when no region or income label
    (nor "Country_Avg_line") comes before "World"; otherwise [px.line]
    raises on the repeated label. *)
Theorem C10_final_columns (raw : table) (s s' : world) (fo : filter_options)
    (final : table) :
  NoDup (labels (preprocess_df raw)) ->
  main_prepare raw s = (Ok (fo, final), s') ->
  exists wi,
    let t := preprocess_df raw in
    let countries := py_sorted (firstn wi (labels t)) in
    list_index "World" (labels t) = Some wi /\
    fo = main_filter_options countries /\
    labels final =
      (("Country_Avg_line" :: countries) ++ region_grps ++ income_grps)%list /\
    (forall l, In l (labels final) -> (1 <= count_categories l fo)%nat) /\
    (countries_only t wi ->
     forall l, In l (labels final) -> count_categories l fo = 1%nat) /\
    (NoDup (labels final) <-> countries_only t wi) /\
    (~ countries_only t wi -> create_chart fo final s' = (Err PlotlyError, s')).
Proof.
  intros Hnd Hm.
  destruct (main_prepare_ok_inv _ _ _ _ _ Hm) as (wi & sel & t2 & H). cbv zeta in H.
  destruct H as (Hw & _ & Ht2 & Hreq & Hfin & Hfo & _).
  exists wi. cbv zeta.
  set (cs := py_sorted (firstn wi (labels (preprocess_df raw)))) in *.
  assert (Hlab : labels final =
                   (("Country_Avg_line" :: cs) ++ region_grps ++ income_grps)%list).
  { rewrite Hfin. unfold labels at 1; cbn [cols].
    apply flat_map_columns_with_labels; [| exact Hreq].
    rewrite Ht2. apply set_column_nodup, Hnd. }
  assert (Hcs : forall l, In l cs -> In l (firstn wi (labels (preprocess_df raw)))).
  { intros l Hl. exact (Permutation_in _ (py_sorted_perm _) Hl). }
  assert (Hiff : NoDup (labels final) <-> countries_only (preprocess_df raw) wi).
  { rewrite Hlab. exact (requested_nodup_iff _ wi Hnd). }
  split; [exact Hw | split; [exact Hfo | split; [exact Hlab |]]].
  split; [| split; [| split; [exact Hiff |]]].
  - intros l Hl. rewrite Hlab in Hl. rewrite Hfo, count_main_filter_options.
    apply in_app_or in Hl. destruct Hl as [Hl | Hl].
    + apply py_in_iff in Hl. rewrite Hl. simpl. lia.
    + apply in_app_or in Hl. destruct Hl as [Hl | Hl]; apply py_in_iff in Hl;
        rewrite Hl; simpl; lia.
  - intros Hpre l Hl. rewrite Hlab in Hl. rewrite Hfo, count_main_filter_options.
    apply in_app_or in Hl. destruct Hl as [Hl | Hl].
    + rewrite (proj2 (py_in_iff _ _) Hl). destruct Hl as [<- | Hl].
      * destruct avg_not_group as [-> ->]. reflexivity.
      * destruct (Hpre l (Hcs l Hl)) as [Hr [Hi _]].
        rewrite (py_in_false _ _ Hr), (py_in_false _ _ Hi). reflexivity.
    + assert (Hnc : py_in l ("Country_Avg_line" :: cs) = false).
      { apply py_in_false. intros [<- | Hc].
        - destruct avg_not_group as [Ha1 Ha2].
          apply in_app_or in Hl.
          destruct Hl as [Hl | Hl]; apply py_in_iff in Hl; congruence.
        - destruct (Hpre l (Hcs l Hc)) as [Hr [Hi _]].
          apply in_app_or in Hl; tauto. }
      rewrite Hnc. apply in_app_or in Hl. destruct Hl as [Hl | Hl].
      * rewrite (region_not_income _ Hl), (proj2 (py_in_iff _ _) Hl). reflexivity.
      * rewrite (income_not_region _ Hl), (proj2 (py_in_iff _ _) Hl). reflexivity.
  - intros Hnot. rewrite create_chart_spec.
    destruct (has_dup (labels final)) eqn:Ed; [reflexivity |].
    exfalso. apply Hnot, Hiff, has_dup_spec, Ed.
Qed.

(** The arguments main passes to [create_chart] on the sample table. *)
Definition sample_args : filter_options * table :=
  match fst (main_prepare sample_raw start_world) with
  | Ok a => a
  | Err _ => ([], mkTable None None [] [])
  end.

Lemma sample_prepare :
  main_prepare sample_raw start_world = (Ok (fst sample_args, snd sample_args), start_world).
Proof. vm_compute. reflexivity. Qed.

Lemma C10_final_columns_witness :
  exists wi,
    let t := preprocess_df sample_raw in
    let countries := py_sorted (firstn wi (labels t)) in
    list_index "World" (labels t) = Some wi /\
    fst sample_args = main_filter_options countries /\
    labels (snd sample_args) =
      (("Country_Avg_line" :: countries) ++ region_grps ++ income_grps)%list /\
    (forall l, In l (labels (snd sample_args)) ->
       (1 <= count_categories l (fst sample_args))%nat) /\
    (countries_only t wi ->
     forall l, In l (labels (snd sample_args)) ->
       count_categories l (fst sample_args) = 1%nat) /\
    (NoDup (labels (snd sample_args)) <-> countries_only t wi) /\
    (~ countries_only t wi ->
     create_chart (fst sample_args) (snd sample_args) start_world
       = (Err PlotlyError, start_world)).
Proof.
  exact (C10_final_columns sample_raw start_world start_world
           (fst sample_args) (snd sample_args) sample_labels_nodup sample_prepare).
Defined.

(** * Further properties of the script *)

(** ** Rounding *)



(** ** Outcomes of main *)

Lemma labels_set_column_in (name : string) (vals : list cell) (t : table) (l : string) :
  In l (labels (set_column name vals t)) <-> In l (labels t) \/ l = name.
Proof.
  rewrite labels_set_column. destruct (py_in name (labels t)) eqn:E.
  - apply py_in_iff in E. split; [tauto | intros [H | ->]; assumption].
  - rewrite in_app_iff. simpl. intuition.
Qed.

(** The requested columns are all present after the aggregate column is set
    exactly when the seven regions and four income groups are reshaped
    columns. *)
Lemma req_present_iff (t : table) (wi : nat) (vals : list cell) :
  forallb (fun l => py_in l (labels (set_column "Country_Avg_line" vals t)))
    (("Country_Avg_line" :: py_sorted (firstn wi (labels t)))
       ++ region_grps ++ income_grps)%list = true <->
  (forall l, In l (region_grps ++ income_grps)%list -> In l (labels t)).
Proof.
  rewrite forallb_forall. split.
  - intros H l Hl. assert (Hl' := H l (in_or_app _ _ _ (or_intror Hl))).
    apply py_in_iff, labels_set_column_in in Hl'.
    destruct Hl' as [Hl' | ->]; [exact Hl' |].
    apply in_app_or in Hl. destruct avg_not_group as [Ha Hb].
    destruct Hl as [Hl | Hl]; apply py_in_iff in Hl; congruence.
  - intros H l Hl. apply py_in_iff, labels_set_column_in.
    apply in_app_or in Hl. destruct Hl as [[<- | Hl] | Hl]; [now right | | ].
    + left. now apply (firstn_labels_in t wi).
    + left. now apply H.
Qed.

Lemma forallb_false_exists {A : Type} (f : A -> bool) (l : list A) :
  forallb f l = false -> exists x, In x l /\ f x = false.
Proof.
  induction l as [| x l IH]; simpl; [discriminate |].
  destruct (f x) eqn:E; simpl.
  - intro H. destruct (IH H) as [y [Hy Hf]]. exists y. tauto.
  - intros _. exists x. tauto.
Qed.



(** X: once "World" is present, main raises [KeyError] exactly when one of
    the seven region or four income-group labels is not a column of the
    reshaped table, and otherwise reaches [create_chart]. *)
Theorem main_key_error_iff (raw : table) (s : world) :
  In "World" (labels (preprocess_df raw)) ->
  (main_from_fetched raw s = (Err KeyError, s) <->
   exists l, In l (region_grps ++ income_grps)%list /\
             ~ In l (labels (preprocess_df raw))).
Proof.
  intro Hw. rewrite main_from_fetched_eq, main_prepare_spec.
  destruct (list_index "World" (labels (preprocess_df raw))) as [wi |] eqn:Ew;
    [| apply list_index_none in Ew; contradiction].
  cbv zeta. unfold select_columns at 1.
  destruct (forallb _ _) eqn:Ef.
  - cbn [fst snd]. rewrite create_chart_spec.
    split.
    + intro H. exfalso. destruct (has_dup _); [discriminate H |].
      destruct (html_writable s); discriminate H.
    + intros [l [Hl Hn]]. exfalso. apply Hn.
      pose proof (proj1 (req_present_iff _ wi _) Ef) as Hall. now apply Hall.
  - split; [intros _ | reflexivity].
    destruct (forallb (fun l => py_in l (labels (preprocess_df raw)))
                (region_grps ++ income_grps)%list) eqn:Eg.
    + exfalso. rewrite forallb_forall in Eg.
      rewrite (proj2 (req_present_iff _ wi _)
                 (fun l Hl => proj1 (py_in_iff _ _) (Eg l Hl))) in Ef.
      discriminate Ef.
    + destruct (forallb_false_exists _ _ Eg) as [l [Hl Hn]].
      exists l. split; [exact Hl |]. intro Hin. apply py_in_iff in Hin. congruence.
Qed.

Lemma main_key_error_iff_witness :
  main_from_fetched sample_raw_no_groups start_world = (Err KeyError, start_world) <->
  exists l, In l (region_grps ++ income_grps)%list /\
            ~ In l (labels (preprocess_df sample_raw_no_groups)).
Proof.
  apply main_key_error_iff. vm_compute. right. left. reflexivity.
Defined.

(** X: the chart's table keeps the reshaped table's row index (the years),
    and every column of it other than "Country_Avg_line" is a column of the
    reshaped table, label and cells unchanged. *)
Theorem main_final_columns_from_reshaped (raw : table) (s s' : world)
    (fig : figure) :
  main_from_fetched raw s = (Ok fig, s') ->
  index (fig_data fig) = index (preprocess_df raw) /\
  (forall l v, In (l, v) (cols (fig_data fig)) -> l <> "Country_Avg_line" ->
     In (l, v) (cols (preprocess_df raw))).
Proof.
  intro Hm. destruct (main_ok_inv _ _ _ _ Hm) as (wi & sel & t2 & H).
  cbv zeta in H. destruct H as (_ & _ & Ht2 & _ & Hdata & _).
  rewrite Hdata, Ht2. split; [reflexivity |].
  intros l v Hin Hl. cbn [cols] in Hin.
  apply in_flat_map in Hin. destruct Hin as [l' [_ Hin]].
  unfold columns_with in Hin. apply filter_In in Hin. destruct Hin as [Hin _].
  unfold set_column in Hin; cbn [cols] in Hin.
  destruct (py_in _ _).
  - apply in_map_iff in Hin. destruct Hin as [[l0 v0] [Heq Hin0]]; cbn [fst] in Heq.
    destruct (String.eqb_spec l0 "Country_Avg_line"); [injection Heq as <- _; congruence |].
    now rewrite <- Heq.
  - apply in_app_or in Hin. destruct Hin as [Hin | [Heq | []]]; [exact Hin |].
    injection Heq as <- _. congruence.
Qed.

Lemma main_final_columns_from_reshaped_witness :
  index (fig_data sample_fig) = index (preprocess_df sample_raw) /\
  (forall l v, In (l, v) (cols (fig_data sample_fig)) -> l <> "Country_Avg_line" ->
     In (l, v) (cols (preprocess_df sample_raw))).
Proof.
  exact (main_final_columns_from_reshaped sample_raw start_world
           (mkWorld [ShowFigure; WriteHtml "visual.html"] true) sample_fig sample_run).
Defined.

(** X: every dropdown option's visibility vector, "All" included, has one
    entry per chart column. *)
Theorem chart_buttons_aligned (fo : filter_options) (columns : list string) :
  forall b, In b (chart_buttons fo columns) ->
    length (b_arg_visible b) = length columns.
Proof.
  rewrite chart_buttons_eq. intros b [<- | Hb].
  - simpl. now rewrite length_map, length_seq.
  - apply in_map_iff in Hb. destruct Hb as [k [<- _]].
    simpl. unfold visibility_list. now rewrite length_map.
Qed.

(** ** The reshaper: shape and invariants *)

Lemma filter_mask_map {A B : Type} (f : A -> B) (m : list bool) (xs : list A) :
  filter_mask m (map f xs) = map f (filter_mask m xs).
Proof.
  revert xs. induction m as [| b m IH]; intros [| x xs]; simpl; try reflexivity.
  destruct b; simpl; now rewrite IH.
Qed.

Lemma filter_mask_nth {A : Type} (m : list bool) (xs : list A) (d : A) :
  length xs = length m ->
  filter_mask m xs = map (fun r => nth r xs d) (filter_mask m (seq 0 (length m))).
Proof.
  revert xs. induction m as [| b m IH]; intros [| x xs] Hl; simpl in *;
    try reflexivity; try discriminate.
  injection Hl as Hl. rewrite <- seq_shift.
  destruct b; simpl; rewrite filter_mask_map, map_map, (IH xs Hl); reflexivity.
Qed.

Lemma in_filter_mask_seq (m : list bool) (r : nat) :
  In r (filter_mask m (seq 0 (length m))) <-> nth r m false = true.
Proof.
  revert r. induction m as [| b m IH]; intro r; simpl.
  - destruct r; simpl; split; (discriminate || tauto).
  - rewrite <- seq_shift, filter_mask_map.
    assert (Hs : forall l, In r (map S l) <-> exists r', r = S r' /\ In r' l).
    { intro l. rewrite in_map_iff. firstorder. }
    destruct b, r as [| r]; simpl.
    + tauto.
    + rewrite Hs, <- IH. split; [intros [H | [r' [Hr H]]]; [discriminate | congruence] |].
      intro H. right. now exists r.
    + rewrite Hs. split; [intros [r' [Hr _]]; discriminate | discriminate].
    + rewrite Hs, <- IH. split; [intros [r' [Hr H]]; congruence | intro H; now exists r].
Qed.

Lemma length_filter_mask {A : Type} (m : list bool) (xs : list A) :
  length xs = length m ->
  length (filter_mask m xs) = length (filter (fun b => b) m).
Proof.
  revert xs. induction m as [| b m IH]; intros [| x xs] Hl; simpl in *;
    try reflexivity; try discriminate.
  injection Hl as Hl. destruct b; simpl; rewrite (IH xs Hl); reflexivity.
Qed.

Lemma length_filter_map_id {A : Type} (f : A -> bool) (l : list A) :
  length (filter (fun b => b) (map f l)) = length (filter f l).
Proof.
  induction l as [| x l IH]; simpl; [reflexivity |].
  destruct (f x); simpl; now rewrite IH.
Qed.

Lemma cell_at_no_value (column : string * list cell) (r : nat) :
  column_has_value column = false -> cell_at r column = None.
Proof.
  intro H. unfold cell_at.
  destruct (nth_in_or_default r (snd column) None) as [Hin | Hd]; [| exact Hd].
  destruct (nth r (snd column) None) as [x |] eqn:E; [| reflexivity].
  exfalso. assert (Hx : exists x, In (Some x) (snd column))
    by (exists x; first [exact Hin | now rewrite <- E]).
  apply column_has_value_spec in Hx. congruence.
Qed.

(** Dropping the all-null columns does not change which rows hold a value. *)
Lemma row_has_value_filter (cs : list (string * list cell)) (r : nat) :
  row_has_value (filter column_has_value cs) r = row_has_value cs r.
Proof.
  unfold row_has_value. induction cs as [| c cs IH]; simpl; [reflexivity |].
  destruct (column_has_value c) eqn:E; simpl; rewrite IH; [reflexivity |].
  now rewrite cell_at_no_value.
Qed.

Lemma row_mask_dropna_columns (df : table) :
  row_mask (dropna_columns_all df) =
    map (row_has_value (cols df)) (seq 0 (length (index df))).
Proof.
  unfold row_mask; simpl. apply map_ext. intro r. apply row_has_value_filter.
Qed.

(** The columns of the reshaped table, written out. *)
Lemma preprocess_df_cols (df : table) :
  let m := map (row_has_value (cols df)) (seq 0 (length (index df))) in
  let C := filter column_has_value (cols df) in
  cols (preprocess_df df) =
    map (fun j => (nth j (filter_mask m (index df)) EmptyString,
                   map (fun c => nth j (map round_cell (filter_mask m (snd c))) None) C))
        (seq 0 (length (filter_mask m (index df)))).
Proof.
  intros m C. unfold preprocess_df, name_axes, transpose; cbn [cols index].
  unfold dropna_rows_all. rewrite row_mask_dropna_columns. fold m.
  cbn [cols index]. apply map_ext. intro j. f_equal.
  unfold df_round1, rename_columns_YR, dropna_columns_all; cbn [cols].
  now rewrite !map_map.
Qed.

Lemma length_row_mask_seq (df : table) :
  length (index df) = length (map (row_has_value (cols df)) (seq 0 (length (index df)))).
Proof. now rewrite length_map, length_seq. Qed.

(** X: the shape of the reshaped table: one row per input column that holds
    a value, one column per input row that holds a value, and every column
    as long as the index (the result is rectangular whatever the input). *)
Theorem preprocess_df_shape (df : table) :
  length (index (preprocess_df df)) = length (filter column_has_value (cols df)) /\
  length (cols (preprocess_df df)) =
    length (filter (row_has_value (cols df)) (seq 0 (length (index df)))) /\
  (forall column, In column (cols (preprocess_df df)) ->
     length (snd column) = length (index (preprocess_df df))).
Proof.
  split; [| split].
  - now rewrite preprocess_df_index, length_map.
  - rewrite preprocess_df_cols, length_map, length_seq.
    rewrite length_filter_mask by apply length_row_mask_seq.
    apply length_filter_map_id.
  - intros column Hc. rewrite preprocess_df_cols in Hc.
    apply in_map_iff in Hc. destruct Hc as [j [<- _]]. cbn [snd].
    now rewrite preprocess_df_index, !length_map.
Qed.

Lemma filter_all_true {A : Type} (f : A -> bool) (l : list A) :
  (forall x, In x l -> f x = true) -> filter f l = l.
Proof.
  induction l as [| x l IH]; intro H; simpl; [reflexivity |].
  rewrite (H x (or_introl eq_refl)), IH; [reflexivity |].
  intros y Hy. apply H. now right.
Qed.

Lemma filter_mask_all_true {A : Type} (m : list bool) (xs : list A) :
  (forall b, In b m -> b = true) -> length xs = length m -> filter_mask m xs = xs.
Proof.
  revert xs. induction m as [| b m IH]; intros [| x xs] Hb Hl; simpl in *;
    try reflexivity; try discriminate.
  rewrite (Hb b (or_introl eq_refl)), IH; [reflexivity | | now injection Hl].
  intros b' Hb'. apply Hb. now right.
Qed.

(** Every column of [t] has one cell per row of its index. *)
Definition rectangular (t : table) : Prop :=
  forall column, In column (cols t) -> length (snd column) = length (index t).

(** X: on a table that is already clean the two [dropna] steps change
    nothing: with no all-null column the first is the identity, and on a
    rectangular table with no all-null row the second is too. *)
Theorem dropna_clean_noop (df : table) :
  ((forall column, In column (cols df) -> column_has_value column = true) ->
   dropna_columns_all df = df) /\
  (rectangular df ->
   (forall r, (r < length (index df))%nat -> row_has_value (cols df) r = true) ->
   dropna_rows_all df = df).
Proof.
  destruct df as [iname cname idx cs]. unfold rectangular; cbn [cols index].
  split.
  - intro H. unfold dropna_columns_all; cbn. now rewrite filter_all_true.
  - intros Hrect Hrows.
    assert (Hm : forall b, In b (row_mask (mkTable iname cname idx cs)) -> b = true).
    { unfold row_mask; cbn. intros b Hb. apply in_map_iff in Hb.
      destruct Hb as [r [<- Hr]]. apply in_seq in Hr. apply Hrows. lia. }
    assert (Hlen : length (row_mask (mkTable iname cname idx cs)) = length idx)
      by (unfold row_mask; cbn; now rewrite length_map, length_seq).
    unfold dropna_rows_all; cbn [index cols index_name columns_name].
    rewrite (filter_mask_all_true _ idx Hm) by congruence. f_equal.
    rewrite <- (map_id cs) at 2. apply map_ext_in. intros [l v] Hin; cbn.
    rewrite filter_mask_all_true; [reflexivity | exact Hm |].
    rewrite length_map, length_seq. apply (Hrect (l, v) Hin).
Qed.

Lemma filter_mask_incl {A : Type} (m : list bool) (xs : list A) (y : A) :
  In y (filter_mask m xs) -> In y xs.
Proof.
  revert xs. induction m as [| b m IH]; intros [| x xs] H; simpl in *; try contradiction.
  destruct b; [destruct H as [H | H]; [now left | right; now apply IH] |].
  right. now apply IH.
Qed.

Lemma nth_error_of_lt {A : Type} (l : list A) (j : nat) :
  (j < length l)%nat -> exists x, nth_error l j = Some x.
Proof.
  intro H. destruct (nth_error l j) as [x |] eqn:E; [now exists x |].
  apply nth_error_None in E. lia.
Qed.

(** X: on a rectangular input, the reshaped table has no all-null column
    and no all-null row: each of its columns (a kept input row) holds a
    value, and so does each of its rows (a kept input column). *)
Theorem preprocess_df_no_empty_lines (df : table) :
  rectangular df ->
  (forall column, In column (cols (preprocess_df df)) ->
     exists x, In (Some x) (snd column)) /\
  (forall i, (i < length (index (preprocess_df df)))%nat ->
     exists column, In column (cols (preprocess_df df)) /\
                    is_some_cell (cell_at i column) = true).
Proof.
  intro Hrect.
  set (n := length (index df)).
  set (m := map (row_has_value (cols df)) (seq 0 n)).
  set (C := filter column_has_value (cols df)).
  set (K := filter_mask m (seq 0 (length m))).
  assert (Hlm : length m = n) by (unfold m; now rewrite length_map, length_seq).
  assert (HK : length (filter_mask m (index df)) = length K).
  { unfold K. rewrite !length_filter_mask; [reflexivity | | now rewrite Hlm].
    now rewrite length_seq. }
  assert (HinK : forall r, In r K -> (r < n)%nat /\ row_has_value (cols df) r = true).
  { intros r Hr. assert (Hs := filter_mask_incl _ _ _ Hr). apply in_seq in Hs.
    apply in_filter_mask_seq in Hr. rewrite Hlm in Hs. split; [lia |].
    rewrite <- Hr. symmetry. apply nth_error_nth. unfold m.
    rewrite nth_error_map, nth_error_seq.
    destruct (Nat.ltb_spec r n); [reflexivity | lia]. }
  assert (Hcell : forall c j r, In c C -> nth_error K j = Some r ->
            nth j (map round_cell (filter_mask m (snd c))) None =
              round_cell (nth r (snd c) None)).
  { intros c j r Hc Hj. apply filter_In in Hc. destruct Hc as [Hc _].
    rewrite (filter_mask_nth m (snd c) None) by (rewrite Hlm; exact (Hrect c Hc)).
    fold K. rewrite map_map. apply nth_error_nth. now rewrite nth_error_map, Hj. }
  assert (Hcols := preprocess_df_cols df). cbv zeta in Hcols. fold n m C in Hcols.
  split.
  - intros column Hcol. rewrite Hcols in Hcol. apply in_map_iff in Hcol.
    destruct Hcol as [j [<- Hj]]. apply in_seq in Hj. cbn [snd].
    destruct (nth_error_of_lt K j) as [r Hr]; [lia |].
    destruct (HinK r (nth_error_In _ _ Hr)) as [_ Hrow].
    unfold row_has_value in Hrow. apply existsb_exists in Hrow.
    destruct Hrow as [c0 [Hc0 Hs]].
    destruct (cell_at r c0) as [x |] eqn:Ex; [| discriminate].
    assert (HC0 : In c0 C).
    { apply filter_In. split; [exact Hc0 |]. apply column_has_value_spec.
      exists x. unfold cell_at in Ex. rewrite <- Ex. apply nth_In.
      destruct (Nat.ltb_spec r (length (snd c0))) as [Hl | Hl]; [exact Hl |].
      rewrite nth_overflow in Ex by exact Hl. discriminate. }
    exists (round1 x). apply in_map_iff. exists c0. split; [| exact HC0].
    rewrite (Hcell c0 j r HC0 Hr). unfold cell_at in Ex. now rewrite Ex.
  - intros i Hi. rewrite preprocess_df_index, length_map in Hi. fold C in Hi.
    destruct (nth_error_of_lt C i Hi) as [c Hc].
    assert (HcC := nth_error_In _ _ Hc).
    assert (Hcv := HcC). apply filter_In in Hcv. destruct Hcv as [Hcdf Hv].
    apply column_has_value_spec in Hv. destruct Hv as [x Hx].
    apply In_nth_error in Hx. destruct Hx as [p Hp].
    assert (Hpn : (p < n)%nat).
    { unfold n. rewrite <- (Hrect c Hcdf). apply nth_error_Some.
      unfold cell in *. congruence. }
    assert (Hrow : row_has_value (cols df) p = true).
    { apply existsb_exists. exists c. split; [exact Hcdf |].
      unfold cell_at. now rewrite (nth_error_nth _ _ _ Hp). }
    assert (HpK : In p K).
    { apply in_filter_mask_seq. apply nth_error_nth. unfold m.
      rewrite nth_error_map, nth_error_seq.
      destruct (Nat.ltb_spec p n); [cbn [option_map Nat.add]; now rewrite Hrow | lia]. }
    apply In_nth_error in HpK. destruct HpK as [j Hj].
    assert (Hjl : (j < length K)%nat) by (apply nth_error_Some; congruence).
    eexists. split.
    + rewrite Hcols. apply in_map_iff. exists j. split; [reflexivity |].
      apply in_seq. lia.
    + unfold cell_at; cbn [snd].
      rewrite (nth_error_nth (map _ C) i _ (eq_trans (nth_error_map _ _ _)
                 (f_equal (option_map _) Hc))).
      cbn. rewrite (Hcell c j p HcC Hj), (nth_error_nth _ _ _ Hp). reflexivity.
Qed.

Lemma sample_raw_rectangular : rectangular sample_raw.
Proof.
  intros column H. simpl in H. destruct H as [<- | [<- | []]]; reflexivity.
Qed.

Lemma preprocess_df_no_empty_lines_witness :
  (forall column, In column (cols (preprocess_df sample_raw)) ->
     exists x, In (Some x) (snd column)) /\
  (forall i, (i < length (index (preprocess_df sample_raw)))%nat ->
     exists column, In column (cols (preprocess_df sample_raw)) /\
                    is_some_cell (cell_at i column) = true).
Proof. exact (preprocess_df_no_empty_lines sample_raw sample_raw_rectangular). Defined.

Lemma dropna_clean_noop_witness :
  dropna_columns_all sample_raw_no_groups = sample_raw_no_groups /\
  dropna_rows_all sample_raw_no_groups = sample_raw_no_groups.
Proof.
  destruct (dropna_clean_noop sample_raw_no_groups) as [H1 H2]. split.
  - apply H1. intros column H. simpl in H. destruct H as [<- | []]. reflexivity.
  - apply H2.
    + intros column H. simpl in H. destruct H as [<- | []]. reflexivity.
    + intros r Hr. simpl in Hr. destruct r as [| [| r]]; [reflexivity | reflexivity | lia].
Defined.

(** X: for a reshaped table with distinct labels, main runs to the end
    (figure shown, "visual.html" written) exactly when the table has a
    "World" column, all seven region and four income-group columns, no
    region, income group or "Country_Avg_line" before "World", and the file
    can be written. *)
Theorem main_succeeds_iff (raw : table) (s : world) :
  NoDup (labels (preprocess_df raw)) ->
  ((exists fig s', main_from_fetched raw s = (Ok fig, s')) <->
   exists wi,
     list_index "World" (labels (preprocess_df raw)) = Some wi /\
     (forall l, In l (region_grps ++ income_grps)%list ->
        In l (labels (preprocess_df raw))) /\
     countries_only (preprocess_df raw) wi /\
     html_writable s = true).
Proof.
  intro Hnd. split.
  - intros (fig & s' & Hm). destruct (main_ok_inv _ _ _ _ Hm) as (wi & sel & t2 & H).
    cbv zeta in H. destruct H as (Hw & _ & Ht2 & Hreq & Hdata & _ & Hd & Hh & _).
    assert (Hnd2 : NoDup (labels t2)) by (rewrite Ht2; apply set_column_nodup, Hnd).
    exists wi. split; [exact Hw |]. split; [| split; [| exact Hh]].
    + apply (req_present_iff _ wi (row_means sel)).
      rewrite forallb_forall. intros l Hl. apply py_in_iff. rewrite <- Ht2. now apply Hreq.
    + apply (requested_nodup_iff _ wi Hnd).
      rewrite <- (flat_map_columns_with_labels _ (cols t2) Hnd2 Hreq).
      apply has_dup_spec. rewrite Hdata in Hd. exact Hd.
  - intros (wi & Hw & Hg & Hc & Hh).
    rewrite main_from_fetched_eq, main_prepare_spec, Hw. cbv zeta.
    set (t2 := set_column _ _ _).
    assert (Hreq : forall l,
               In l (("Country_Avg_line" :: py_sorted (firstn wi (labels (preprocess_df raw))))
                       ++ region_grps ++ income_grps)%list -> In l (labels t2)).
    { intros l Hl. apply py_in_iff. revert l Hl. apply forallb_forall.
      apply (req_present_iff _ wi _), Hg. }
    assert (Hnd2 : NoDup (labels t2)) by apply set_column_nodup, Hnd.
    rewrite (select_columns_ok _ _ Hreq). cbn [fst snd]. rewrite create_chart_spec.
    replace (has_dup _) with false.
    + rewrite Hh. eexists. eexists. reflexivity.
    + symmetry. apply has_dup_spec. unfold labels at 1. cbn [cols].
      rewrite (flat_map_columns_with_labels _ _ Hnd2 Hreq).
      now apply requested_nodup_iff.
Qed.

Lemma main_succeeds_iff_witness :
  exists fig s', main_from_fetched sample_raw start_world = (Ok fig, s').
Proof.
  apply (main_succeeds_iff sample_raw start_world sample_labels_nodup).
  exists 2%nat. split; [vm_compute; reflexivity |].
  split; [| split; [| reflexivity]].
  - intros l Hl. vm_compute in Hl. vm_compute.
    intuition (subst; intuition).
  - intros l Hl. vm_compute in Hl.
    destruct Hl as [<- | [<- | []]]; vm_compute; intuition discriminate.
Defined.

(** ** Renaming the year columns *)

Lemma replace_YR_cons (c : ascii) (rest : string) :
  c <> "Y"%char -> replace_YR (String c rest) = String c (replace_YR rest).
Proof.
  intro H. destruct c as [[] [] [] [] [] [] [] []]; try reflexivity.
  exfalso. apply H. reflexivity.
Qed.

(** X: a label "YR" followed by text without the letter Y (such as a year
    "YR1990") is renamed to that text ("1990"), and such text is left as it
    is. *)
Theorem replace_YR_year_label (s : string) :
  ~ In "Y"%char (list_ascii_of_string s) ->
  replace_YR s = s /\ replace_YR (String "Y" (String "R" s)) = s.
Proof.
  intro H. assert (Hs : replace_YR s = s).
  { induction s as [| c s IH]; [reflexivity |].
    simpl in H. rewrite replace_YR_cons by (intro E; apply H; now left).
    rewrite IH by (intro E; apply H; now right). reflexivity. }
  split; [exact Hs | exact Hs].
Qed.

Lemma replace_YR_year_label_witness :
  replace_YR "1990" = "1990" /\ replace_YR "YR1990" = "1990".
Proof.
  apply (replace_YR_year_label "1990"). simpl. intuition discriminate.
Defined.

Lemma chart_buttons_aligned_witness :
  length (b_arg_visible (all_button ["Country_Avg_line"; "A"])) = 2%nat.
Proof.
  apply (chart_buttons_aligned (main_filter_options ["A"]) ["Country_Avg_line"; "A"]).
  now left.
Defined.
